(* ===================================================================== *)
(* myNotifications: the state logic of src/App.js                        *)
(*                                                                       *)
(* The App component keeps four pieces of React state (the push token,   *)
(* the latest notification, a bounded notification history and an error  *)
(* message) and talks to expo-notifications, expo-clipboard and Alert.   *)
(* The callbacks of the component are embedded as programs of a small    *)
(* free monad: calls into the outside world are events answered by an    *)
(* arbitrary handler and recorded in a trace, React state setters are    *)
(* state updates, a thrown Error (or a rejected awaited promise) is an   *)
(* exceptional outcome.                                                  *)
(* ===================================================================== *)

From Stdlib Require Import Ascii String.
From stdpp Require Import base option list strings pretty gmap.

Set Default Proof Using "Type".
Local Open Scope string_scope.
Local Open Scope list_scope.
Local Open Scope nat_scope.
Local Open Scope stdpp_scope.

(* --------------------------------------------------------------------- *)
(* 1. Values                                                             *)
(* --------------------------------------------------------------------- *)

(* The payload of a notification is a JS object used as a map from
   strings to arbitrary JSON-like values. *)
#[warnings="-register-all"]
Inductive JsValue : Type :=
| JsNull
| JsBool (b : bool)
| JsNumber (z : Z)
| JsString (s : string)
| JsObject (fields : gmap string JsValue).

(* notification.request.content: the fields the callbacks read.
   None stands for null/undefined. *)
Record NotificationContent : Type := {
  title : option string;
  body : option string;
  data : option (gmap string JsValue)
}.

Record NotificationRequest : Type := {
  identifier : string;
  content : NotificationContent
}.

Record Notification : Type := {
  request : NotificationRequest
}.

(* The argument of the tap listener. *)
Record NotificationResponse : Type := {
  actionIdentifier : string;
  response_notification : Notification
}.

(* The object literal built by addToHistory. *)
Record HistoryEntry : Type := {
  id : string;
  entry_title : string;
  entry_body : string;
  entry_data : gmap string JsValue;
  timestamp : string;
  rawNotification : Notification
}.

(* The four useState cells of App. *)
Record AppState : Type := {
  expoPushToken : string;
  notification : option Notification;
  notificationHistory : list HistoryEntry;
  errorMsg : string
}.

(* useState(''), useState(null), useState([]), useState('') *)
Definition initialState : AppState :=
  {| expoPushToken := "";
     notification := None;
     notificationHistory := [];
     errorMsg := "" |}.

(* A JS Error object; only its message is read. *)
Record JsError : Type := { message : string }.

(* What an awaited promise settles to. *)
Inductive Settled (X : Type) : Type :=
| Resolved (x : X)
| Rejected (e : JsError).
Arguments Resolved {X} x.
Arguments Rejected {X} e.

(* expo-notifications: PermissionStatus and the response of the two
   permission calls. *)
Inductive PermissionStatus : Type := GRANTED | DENIED | UNDETERMINED.

Record PermissionResponse : Type := { status : PermissionStatus }.

Record ExpoPushToken : Type := { token_data : string }.

Inductive AndroidImportance : Type :=
| IMPORTANCE_DEFAULT | IMPORTANCE_HIGH | IMPORTANCE_MAX.

Record NotificationChannelInput : Type := {
  channel_name : string;
  importance : AndroidImportance;
  vibrationPattern : list Z;
  lightColor : string
}.

Record NotificationContentInput : Type := {
  input_title : string;
  input_body : string;
  input_data : gmap string JsValue
}.

Record NotificationRequestInput : Type := {
  input_content : NotificationContentInput;
  trigger_seconds : Z
}.

(* Module-level constants read by the component: Device.isDevice,
   Platform.OS and the two places of expo-constants where a project id
   may live. *)
Record EasConfig : Type := { projectId : option string }.
Record ExpoExtra : Type := { eas : option EasConfig }.
Record ExpoConfig : Type := { extra : option ExpoExtra }.
Record ConstantsT : Type := {
  expoConfig : option ExpoConfig;
  easConfig : option EasConfig
}.

Record Env : Type := {
  isDevice : bool;
  platformOS : string;
  Constants : ConstantsT
}.

(* --------------------------------------------------------------------- *)
(* 2. Programs                                                           *)
(* --------------------------------------------------------------------- *)

(* Calls out of the component, indexed by what they answer. The async
   ones answer a settled promise; Alert.alert and
   new Date().toLocaleString() answer at once. *)
Inductive Event : Type → Type :=
| GetPermissionsAsync : Event (Settled PermissionResponse)
| RequestPermissionsAsync : Event (Settled PermissionResponse)
| GetExpoPushTokenAsync (project : option string) : Event (Settled ExpoPushToken)
| SetNotificationChannelAsync (channelId : string) (channel : NotificationChannelInput) :
    Event (Settled unit)
| ScheduleNotificationAsync (req : NotificationRequestInput) : Event (Settled unit)
| ClipboardSetStringAsync (text : string) : Event (Settled unit)
| AlertAlert (alert_title alert_message : string) : Event unit
| DateToLocaleString : Event string.

Inductive Prog (A : Type) : Type :=
| Ret (a : A)
| Throw (e : JsError)
| Call {X : Type} (c : Event X) (k : X → Prog A)
| SetState (f : AppState → AppState) (k : Prog A).
Arguments Ret {A} a.
Arguments Throw {A} e.
Arguments Call {A X} c k.
Arguments SetState {A} f k.

Fixpoint bind {A B : Type} (p : Prog A) (k : A → Prog B) : Prog B :=
  match p with
  | Ret a => k a
  | Throw e => Throw e
  | Call c k' => Call c (λ x, bind (k' x) k)
  | SetState f p' => SetState f (bind p' k)
  end.

#[global] Instance Prog_ret : MRet Prog := @Ret.
#[global] Instance Prog_bind : MBind Prog := λ A B k p, bind p k.

(* promise.catch(handler) / try ... catch *)
Fixpoint try_catch {A : Type} (p : Prog A) (handler : JsError → Prog A) : Prog A :=
  match p with
  | Ret a => Ret a
  | Throw e => handler e
  | Call c k => Call c (λ x, try_catch (k x) handler)
  | SetState f p' => SetState f (try_catch p' handler)
  end.

Definition call {X : Type} (c : Event X) : Prog X := Call c Ret.

(* await c: a rejection is thrown at the await. *)
Definition await {X : Type} (c : Event (Settled X)) : Prog X :=
  Call c (λ r, match r with Resolved x => Ret x | Rejected e => Throw e end).

Definition throw_new_Error {A : Type} (msg : string) : Prog A :=
  Throw {| message := msg |}.

(* The React setters. *)
Definition setExpoPushToken (token : string) : Prog unit :=
  SetState (λ st, {| expoPushToken := token;
                     notification := notification st;
                     notificationHistory := notificationHistory st;
                     errorMsg := errorMsg st |}) (Ret ()).

Definition setNotification (n : option Notification) : Prog unit :=
  SetState (λ st, {| expoPushToken := expoPushToken st;
                     notification := n;
                     notificationHistory := notificationHistory st;
                     errorMsg := errorMsg st |}) (Ret ()).

(* setNotificationHistory(prev => f(prev)) *)
Definition setNotificationHistory (f : list HistoryEntry → list HistoryEntry) : Prog unit :=
  SetState (λ st, {| expoPushToken := expoPushToken st;
                     notification := notification st;
                     notificationHistory := f (notificationHistory st);
                     errorMsg := errorMsg st |}) (Ret ()).

Definition setErrorMsg (msg : string) : Prog unit :=
  SetState (λ st, {| expoPushToken := expoPushToken st;
                     notification := notification st;
                     notificationHistory := notificationHistory st;
                     errorMsg := msg |}) (Ret ()).

(* --------------------------------------------------------------------- *)
(* 3. The callbacks of App                                               *)
(* --------------------------------------------------------------------- *)

(* s || d on a string that may be null/undefined: '' is falsy too. *)
Definition string_or (v : option string) (d : string) : string :=
  match v with
  | Some s => if decide (s = "") then d else s
  | None => d
  end.

(* o || {} on an object that may be null/undefined: every object,
   the empty one included, is truthy. *)
Definition object_or_empty (v : option (gmap string JsValue)) : gmap string JsValue :=
  match v with
  | Some o => o
  | None => ∅
  end.

(* The literal of lines 76-83, with the reading of the clock made
   explicit. *)
Definition newNotification (n : Notification) (now : string) : HistoryEntry :=
  {| id := identifier (request n);
     entry_title := string_or (title (content (request n))) "No Title";
     entry_body := string_or (body (content (request n))) "No Body";
     entry_data := object_or_empty (data (content (request n)));
     timestamp := now;
     rawNotification := n |}.

(* prev.slice(0, 9) is take 9 prev *)
Definition addToHistory (n : Notification) : Prog unit :=
  now ← call DateToLocaleString;
  setNotificationHistory (λ prev, newNotification n now :: take 9 prev).

Definition notificationListener (n : Notification) : Prog unit :=
  setNotification (Some n);;
  addToHistory n.

Definition responseListener (response : NotificationResponse) : Prog unit :=
  let n := response_notification response in
  setNotification (Some n);;
  addToHistory n.

Definition clearHistory : Prog unit :=
  setNotificationHistory (λ _, []);;
  setNotification None;;
  call (AlertAlert "Success" "Notification history cleared").

Definition emulatorError : string :=
  "Push notifications are not available on emulators. Please use a physical device.".

Definition permissionError : string :=
  "Permission not granted for push notifications!".

(* Constants.expoConfig?.extra?.eas?.projectId ?? Constants.easConfig?.projectId *)
Definition configuredProjectId (c : ConstantsT) : option string :=
  let fromExpoConfig : option string :=
    cfg ← expoConfig c; ex ← extra cfg; e ← eas ex; projectId e in
  match fromExpoConfig with
  | Some p => Some p
  | None => e ← easConfig c; projectId e
  end.

Definition is_granted (s : PermissionStatus) : bool :=
  match s with GRANTED => true | _ => false end.

Definition defaultChannel : NotificationChannelInput :=
  {| channel_name := "default";
     importance := IMPORTANCE_MAX;
     vibrationPattern := [0; 250; 250; 250]%Z;
     lightColor := "#FF231F7C" |}.

Definition registerForPushNotificationsAsync (env : Env) : Prog string :=
  if negb (isDevice env) then throw_new_Error emulatorError
  else
    existing ← await GetPermissionsAsync;
    let existingStatus := status existing in
    finalStatus ←
      (if negb (is_granted existingStatus)
       then requested ← await RequestPermissionsAsync; mret (status requested)
       else mret existingStatus);
    if negb (is_granted finalStatus) then throw_new_Error permissionError
    else
      pushToken ← await (GetExpoPushTokenAsync (configuredProjectId (Constants env)));
      let token := token_data pushToken in
      (if decide (platformOS env = "android")
       then await (SetNotificationChannelAsync "default" defaultChannel)
       else mret ());;
      mret token.

(* The promise chain of the mount effect (lines 35-43):
   register().then(token => setExpoPushToken(token))
             .catch(error => setErrorMsg(error.message)).
   The console logging is left out; the two subscriptions are the
   actions NotificationReceived and NotificationResponseReceived
   below. *)
Definition mountEffect (env : Env) : Prog unit :=
  try_catch
    (token ← registerForPushNotificationsAsync env; setExpoPushToken token)
    (λ error, setErrorMsg (message error)).

(* A JS string is truthy unless it is ''. *)
Definition truthy (s : string) : bool := bool_decide (s ≠ "").

Definition LF : string := String "010"%char "".

Definition copiedMessage : string :=
  "Token copied to clipboard!" +:+ LF +:+ LF +:+
  "You can now paste it in Firebase Console.".

(* The callback closes over the expoPushToken of the render it was
   created in; it is passed as an argument. *)
Definition copyTokenToClipboard (expoPushToken : string) : Prog unit :=
  if truthy expoPushToken then
    await (ClipboardSetStringAsync expoPushToken);;
    call (AlertAlert "Success" copiedMessage)
  else
    call (AlertAlert "Error" "No token available to copy").

Definition testNotification : NotificationRequestInput :=
  {| input_content :=
       {| input_title := "Test Notification 📬";
          input_body := "This is a local test notification!";
          input_data := {[ "testData" := JsString "Test notification data" ]} |};
     trigger_seconds := 2 |}.

Definition sendTestNotification : Prog unit :=
  await (ScheduleNotificationAsync testNotification);;
  call (AlertAlert "Scheduled" "Test notification will appear in 2 seconds").

(* The status line of the view (lines 191-194). *)
Definition notificationStatusText (st : AppState) : string :=
  if truthy (expoPushToken st) then "✅ Ready to receive push notifications"
  else if truthy (errorMsg st) then "❌ " +:+ errorMsg st
  else "⏳ Initializing...".

(* --------------------------------------------------------------------- *)
(* 4. Running a callback                                                 *)
(* --------------------------------------------------------------------- *)

(* One call that left the component. *)
Inductive Invocation : Type :=
| Invoke {X : Type} (c : Event X).

Inductive Outcome (A : Type) : Type :=
| Returned (a : A)
| Threw (e : JsError).
Arguments Returned {A} a.
Arguments Threw {A} e.

(* The React state, the state of everything outside the component and
   the calls made so far, oldest first. *)
Record World (S : Type) : Type := {
  app : AppState;
  outside : S;
  trace : list Invocation
}.
Arguments app {S} w.
Arguments outside {S} w.
Arguments trace {S} w.

(* How the outside answers a call, and what it becomes. *)
Definition Handler (S : Type) : Type := ∀ X : Type, Event X → S → X * S.

Fixpoint run {S A : Type} (h : Handler S) (p : Prog A) (w : World S) : Outcome A * World S :=
  match p with
  | Ret a => (Returned a, w)
  | Throw e => (Threw e, w)
  | Call c k =>
      let '(x, s) := h _ c (outside w) in
      run h (k x) {| app := app w; outside := s; trace := trace w ++ [Invoke c] |}
  | SetState f k =>
      run h k {| app := f (app w); outside := outside w; trace := trace w |}
  end.

Definition initialWorld {S : Type} (s : S) : World S :=
  {| app := initialState; outside := s; trace := [] |}.

(* What can happen to the mounted component. *)
Inductive Action : Type :=
| Mount
| NotificationReceived (n : Notification)
| NotificationResponseReceived (response : NotificationResponse)
| PressClear
| PressCopyToken
| PressSendTest.

Definition callback (env : Env) (a : Action) (st : AppState) : Prog unit :=
  match a with
  | Mount => mountEffect env
  | NotificationReceived n => notificationListener n
  | NotificationResponseReceived response => responseListener response
  | PressClear => clearHistory
  | PressCopyToken => copyTokenToClipboard (expoPushToken st)
  | PressSendTest => sendTestNotification
  end.

(* A callback is run to its end before the next action. The async
   callbacks write state only after their last await (the mount effect)
   or not at all, and what they write does not depend on the state, so
   letting other callbacks run between their awaits reaches no other
   app state. *)
Definition step {S : Type} (h : Handler S) (env : Env) (w : World S) (a : Action) : World S :=
  (run h (callback env a (app w)) w).2.

Definition session {S : Type} (h : Handler S) (env : Env) (acts : list Action) (w : World S) :
    World S :=
  foldl (step h env) w acts.

(* Recording a sequence of notifications: addToHistory once for each,
   oldest first. *)
Definition record {S : Type} (h : Handler S) (w : World S) (n : Notification) : World S :=
  (run h (addToHistory n) w).2.

Definition recordAll {S : Type} (h : Handler S) (ns : list Notification) (w : World S) :
    World S :=
  foldl (record h) w ns.

(* The calls a program makes when run from w, oldest first. *)
Definition callsMade {S A : Type} (h : Handler S) (p : Prog A) (w : World S) :
    list Invocation :=
  drop (length (trace w)) (trace (run h p w).2).

(* Classifying the calls of a trace. *)
Definition is_permission_call (i : Invocation) : bool :=
  match i with
  | Invoke GetPermissionsAsync | Invoke RequestPermissionsAsync => true
  | _ => false
  end.

Definition is_permission_request (i : Invocation) : bool :=
  match i with
  | Invoke RequestPermissionsAsync => true
  | _ => false
  end.

Definition is_token_request (i : Invocation) : bool :=
  match i with
  | Invoke (GetExpoPushTokenAsync _) => true
  | _ => false
  end.

Definition is_clipboard_write (i : Invocation) : bool :=
  match i with
  | Invoke (ClipboardSetStringAsync _) => true
  | _ => false
  end.

Definition is_schedule_call (i : Invocation) : bool :=
  match i with
  | Invoke (ScheduleNotificationAsync _) => true
  | _ => false
  end.

(* The notifications recorded since the history was last cleared,
   oldest first. *)
Definition recorded_by (a : Action) : option Notification :=
  match a with
  | NotificationReceived n => Some n
  | NotificationResponseReceived response => Some (response_notification response)
  | _ => None
  end.

Fixpoint receivedSinceClear (acts : list Action) (acc : list Notification) : list Notification :=
  match acts with
  | [] => acc
  | PressClear :: acts' => receivedSinceClear acts' []
  | a :: acts' =>
      receivedSinceClear acts'
        (match recorded_by a with Some n => acc ++ [n] | None => acc end)
  end.

(* A scripted outside world, to run the callbacks on concrete inputs:
   it answers the permission query, the permission request and the token
   request as scripted, lets every other promise resolve, and counts the
   calls to stamp the clock. *)
Record Script : Type := {
  existingPermission : Settled PermissionResponse;
  requestedPermission : Settled PermissionResponse;
  pushToken : Settled ExpoPushToken;
  calls : nat
}.

Definition scripted : Handler Script :=
  λ X c,
    match c in Event X return Script → X * Script with
    | GetPermissionsAsync => λ s, (existingPermission s, s)
    | RequestPermissionsAsync => λ s, (requestedPermission s, s)
    | GetExpoPushTokenAsync _ => λ s, (pushToken s, s)
    | SetNotificationChannelAsync _ _ => λ s, (Resolved (), s)
    | ScheduleNotificationAsync _ => λ s, (Resolved (), s)
    | ClipboardSetStringAsync _ => λ s, (Resolved (), s)
    | AlertAlert _ _ => λ s, ((), s)
    | DateToLocaleString =>
        λ s, (pretty (calls s),
              {| existingPermission := existingPermission s;
                 requestedPermission := requestedPermission s;
                 pushToken := pushToken s;
                 calls := Datatypes.S (calls s) |})
    end.

(* --------------------------------------------------------------------- *)
(* 5. Reading the history                                                *)
(* --------------------------------------------------------------------- *)

(* The notifications a history holds, head first. *)
Definition recordedNotifications (hist : list HistoryEntry) : list Notification :=
  rawNotification <$> hist.

(* An entry is the literal of addToHistory for the notification it
   keeps and the time it shows. *)
Definition built_by_addToHistory (e : HistoryEntry) : Prop :=
  e = newNotification (rawNotification e) (timestamp e).

(* Both display strings of an entry are non-empty. *)
Definition populated (e : HistoryEntry) : Prop :=
  entry_title e ≠ "" ∧ entry_body e ≠ "".

(* How many entries carry a given id. *)
Definition count_id (i : string) (hist : list HistoryEntry) : nat :=
  length (filter (λ e, id e = i) hist).

(* Notifications to run the callbacks on. *)
Definition plainNotification (i : string) (t b : option string)
    (d : option (gmap string JsValue)) : Notification :=
  {| request := {| identifier := i;
                   content := {| title := t; body := b; data := d |} |} |}.

Definition sampleNotification (i : string) : Notification :=
  plainNotification i (Some ("Title " +:+ i)) (Some ("Body " +:+ i)) (Some ∅).

Definition bareNotification : Notification :=
  plainNotification "bare" None (Some "") None.

Definition sampleScript (existing requested : PermissionStatus) (token : string) : Script :=
  {| existingPermission := Resolved {| status := existing |};
     requestedPermission := Resolved {| status := requested |};
     pushToken := Resolved {| token_data := token |};
     calls := 0 |}.

Definition physicalDevice : Env :=
  {| isDevice := true;
     platformOS := "android";
     Constants := {| expoConfig := None; easConfig := None |} |}.

Definition emulator : Env :=
  {| isDevice := false;
     platformOS := "android";
     Constants := {| expoConfig := None; easConfig := None |} |}.

(* --------------------------------------------------------------------- *)
(* 5b. The view                                                          *)
(* --------------------------------------------------------------------- *)

(* Line 198: the token section, and the copy button inside it, is
   rendered only for a truthy token. *)
Definition tokenSectionShown (st : AppState) : bool := truthy (expoPushToken st).

(* Line 348: the history section, and the clear button inside it, is
   rendered only for a non-empty history. *)
Definition historySectionShown (st : AppState) : bool :=
  bool_decide (0 < length (notificationHistory st)).

(* Line 364: key={item.id + index}, the index being appended in
   decimal. *)
Definition historyKeys (hist : list HistoryEntry) : list string :=
  imap (λ index item, id item +:+ pretty index) hist.

(* Lines 312-313: the Custom Data row of the latest notification,
   data && Object.keys(data).length > 0. *)
Definition customDataShown (n : Notification) : bool :=
  match data (content (request n)) with
  | Some d => bool_decide (0 < size d)
  | None => false
  end.

(* Line 386: the "Contains custom data" mark of a history item,
   Object.keys(item.data).length > 0. *)
Definition customDataMarked (item : HistoryEntry) : bool :=
  bool_decide (0 < size (entry_data item)).

(* The presses the rendered view offers: a button that is not rendered
   cannot be pressed. *)
Definition offered (st : AppState) (a : Action) : bool :=
  match a with
  | PressCopyToken => tokenSectionShown st
  | PressClear => historySectionShown st
  | _ => true
  end.

Definition uiStep {S : Type} (h : Handler S) (env : Env) (w : World S) (a : Action) : World S :=
  if offered (app w) a then step h env w a else w.

Definition uiSession {S : Type} (h : Handler S) (env : Env) (acts : list Action) (w : World S) :
    World S :=
  foldl (uiStep h env) w acts.

Definition is_permission_query (i : Invocation) : bool :=
  match i with
  | Invoke GetPermissionsAsync => true
  | _ => false
  end.

Definition is_channel_call (i : Invocation) : bool :=
  match i with
  | Invoke (SetNotificationChannelAsync _ _) => true
  | _ => false
  end.

(* An alert titled 'Error'. *)
Definition is_error_alert (i : Invocation) : bool :=
  match i with
  | Invoke (AlertAlert t _) => bool_decide (t = "Error")
  | _ => false
  end.

(* A full history whose oldest entry, in the tenth place, is the only
   one with the id 'dup': ten notifications recorded from the initial
   state, 'dup' first. *)
Definition tenthPlaceWorld : World Script :=
  recordAll scripted
    (sampleNotification <$> ["dup"; "a"; "b"; "c"; "d"; "e"; "f"; "g"; "h"; "i"])
    (initialWorld (sampleScript GRANTED GRANTED "ExponentPushToken[x]")).


(* --------------------------------------------------------------------- *)
(* 6. Running programs: equations                                        *)
(* --------------------------------------------------------------------- *)

Section Running.
Context {S : Type} (h : Handler S).

Lemma run_bind {A B : Type} (p : Prog A) (k : A → Prog B) (w : World S) :
  run h (p ≫= k) w =
  match run h p w with
  | (Returned a, w') => run h (k a) w'
  | (Threw e, w') => (Threw e, w')
  end.
Proof.
  change (p ≫= k) with (bind p k).
  revert w. induction p as [a|e|X c k' IH|f p IH]; intros w; simpl; try done.
  destruct (h X c (outside w)) as [x s]. apply IH.
Qed.

Lemma run_try_catch {A : Type} (p : Prog A) (handler : JsError → Prog A) (w : World S) :
  run h (try_catch p handler) w =
  match run h p w with
  | (Returned a, w') => (Returned a, w')
  | (Threw e, w') => run h (handler e) w'
  end.
Proof.
  revert w. induction p as [a|e|X c k' IH|f p IH]; intros w; simpl; try done.
  destruct (h X c (outside w)) as [x s]. apply IH.
Qed.

(* A run only ever extends the trace. *)
Lemma run_trace_extends {A : Type} (p : Prog A) (w : World S) :
  ∃ calls, trace (run h p w).2 = trace w ++ calls.
Proof.
  revert w. induction p as [a|e|X c k' IH|f p IH]; intros w; simpl.
  - exists []. by rewrite app_nil_r.
  - exists []. by rewrite app_nil_r.
  - destruct (h X c (outside w)) as [x s].
    destruct (IH x {| app := app w; outside := s; trace := trace w ++ [Invoke c] |})
      as [calls Hcalls].
    exists (Invoke c :: calls). rewrite Hcalls. simpl. by rewrite <- app_assoc.
  - exact (IH {| app := f (app w); outside := outside w; trace := trace w |}).
Qed.

Lemma run_addToHistory (n : Notification) (w : World S) :
  run h (addToHistory n) w =
  let '(now, s) := h _ DateToLocaleString (outside w) in
  (Returned (),
   {| app := {| expoPushToken := expoPushToken (app w);
                notification := notification (app w);
                notificationHistory :=
                  newNotification n now :: take 9 (notificationHistory (app w));
                errorMsg := errorMsg (app w) |};
      outside := s;
      trace := trace w ++ [Invoke DateToLocaleString] |}).
Proof. simpl. by destruct (h _ DateToLocaleString (outside w)). Qed.

Lemma run_notificationListener (n : Notification) (w : World S) :
  run h (notificationListener n) w =
  let '(now, s) := h _ DateToLocaleString (outside w) in
  (Returned (),
   {| app := {| expoPushToken := expoPushToken (app w);
                notification := Some n;
                notificationHistory :=
                  newNotification n now :: take 9 (notificationHistory (app w));
                errorMsg := errorMsg (app w) |};
      outside := s;
      trace := trace w ++ [Invoke DateToLocaleString] |}).
Proof. simpl. by destruct (h _ DateToLocaleString (outside w)). Qed.

Lemma run_responseListener (response : NotificationResponse) (w : World S) :
  run h (responseListener response) w =
  run h (notificationListener (response_notification response)) w.
Proof. done. Qed.

Lemma run_clearHistory (w : World S) :
  run h clearHistory w =
  (Returned (),
   {| app := {| expoPushToken := expoPushToken (app w);
                notification := None;
                notificationHistory := [];
                errorMsg := errorMsg (app w) |};
      outside := (h _ (AlertAlert "Success" "Notification history cleared") (outside w)).2;
      trace := trace w ++ [Invoke (AlertAlert "Success" "Notification history cleared")] |}).
Proof.
  simpl. by destruct (h _ (AlertAlert _ _) (outside w)) as [[] s].
Qed.

End Running.

(* Case analysis on what the outside answers. *)
Ltac crunch h :=
  repeat (simpl;
    match goal with
    | |- context [h ?X ?c ?s] => destruct (h X c s) as [? ?]
    | |- context [match ?x with Resolved _ => _ | Rejected _ => _ end] => destruct x
    | |- context [is_granted (status ?x)] => destruct x as [[]]
    | |- context [decide ?P] => destruct (decide P)
    | |- context [truthy ?t] => destruct (truthy t)
    | |- context [isDevice ?e] => destruct (isDevice e)
    end); simpl; try done.

Section Frames.
Context {S : Type} (h : Handler S).

(* The mount effect writes the token or the error message, nothing
   else. *)
Lemma run_mountEffect_frame (env : Env) (w : World S) :
  (run h (mountEffect env) w).1 = Returned () ∧
  notification (app (run h (mountEffect env) w).2) = notification (app w) ∧
  notificationHistory (app (run h (mountEffect env) w).2) = notificationHistory (app w).
Proof.
  unfold mountEffect, registerForPushNotificationsAsync. crunch h.
Qed.

Lemma run_copyTokenToClipboard_frame (token : string) (w : World S) :
  app (run h (copyTokenToClipboard token) w).2 = app w.
Proof. unfold copyTokenToClipboard. crunch h. Qed.

Lemma run_sendTestNotification_frame (w : World S) :
  app (run h sendTestNotification w).2 = app w.
Proof. unfold sendTestNotification. crunch h. Qed.

End Frames.

(* --------------------------------------------------------------------- *)
(* 7. The bounded history                                                *)
(* --------------------------------------------------------------------- *)

Section History.
Context {S : Type} (h : Handler S).

Lemma record_history (w : World S) (n : Notification) :
  ∃ now, notificationHistory (app (record h w n)) =
         newNotification n now :: take 9 (notificationHistory (app w)).
Proof.
  unfold record. rewrite run_addToHistory.
  destruct (h _ DateToLocaleString (outside w)) as [now s]. by exists now.
Qed.

Lemma record_frame (w : World S) (n : Notification) :
  expoPushToken (app (record h w n)) = expoPushToken (app w) ∧
  notification (app (record h w n)) = notification (app w) ∧
  errorMsg (app (record h w n)) = errorMsg (app w).
Proof.
  unfold record. rewrite run_addToHistory.
  by destruct (h _ DateToLocaleString (outside w)).
Qed.

Lemma recordedNotifications_cons_take (x : HistoryEntry) (hist : list HistoryEntry) :
  recordedNotifications (x :: take 9 hist) =
  rawNotification x :: take 9 (recordedNotifications hist).
Proof. unfold recordedNotifications. by rewrite fmap_cons, fmap_take. Qed.

Lemma recordAll_snoc (ns : list Notification) (n : Notification) (w : World S) :
  recordAll h (ns ++ [n]) w = record h (recordAll h ns w) n.
Proof. unfold recordAll. by rewrite foldl_app. Qed.

(* Whatever was there before, the history after a run of records is
   the ten newest of the new notifications followed by the old ones. *)
Lemma recordAll_recorded (ns : list Notification) (w : World S) :
  length (notificationHistory (app w)) ≤ 10 →
  recordedNotifications (notificationHistory (app (recordAll h ns w))) =
  take 10 (reverse ns ++ recordedNotifications (notificationHistory (app w))).
Proof.
  intros Hlen. induction ns as [|n ns IH] using rev_ind.
  - simpl. rewrite take_ge; [done|].
    unfold recordedNotifications. by rewrite length_fmap.
  - rewrite recordAll_snoc.
    destruct (record_history (recordAll h ns w) n) as [now ->].
    rewrite recordedNotifications_cons_take, IH, take_take, reverse_snoc.
    done.
Qed.

Lemma recordAll_built (ns : list Notification) (w : World S) :
  Forall built_by_addToHistory (notificationHistory (app w)) →
  Forall built_by_addToHistory (notificationHistory (app (recordAll h ns w))).
Proof.
  intros Hw. induction ns as [|n ns IH] using rev_ind; [done|].
  rewrite recordAll_snoc.
  destruct (record_history (recordAll h ns w) n) as [now ->].
  constructor; [done|]. by apply Forall_take.
Qed.

End History.

(** C1: starting from the empty history, after any sequence of
    addToHistory calls the history has min(10, number of calls) entries,
    it holds exactly the last ten recorded notifications, newest first,
    each entry being the one addToHistory builds for its notification;
    after eleven notifications A..K it holds K, J, ..., B: A is gone and
    K is at the head. *)
Theorem record_keeps_last_ten {S : Type} (h : Handler S) (s : S) (ns : list Notification) :
  let hist := notificationHistory (app (recordAll h ns (initialWorld s))) in
  length hist = 10 `min` length ns ∧
  recordedNotifications hist = take 10 (reverse ns) ∧
  Forall built_by_addToHistory hist ∧
  ∀ A B C D E F G H I J K : Notification,
    recordedNotifications
      (notificationHistory
         (app (recordAll h [A; B; C; D; E; F; G; H; I; J; K] (initialWorld s)))) =
    [K; J; I; H; G; F; E; D; C; B].
Proof.
  assert (Hall : ∀ l, recordedNotifications
                        (notificationHistory (app (recordAll h l (initialWorld s)))) =
                      take 10 (reverse l)).
  { intros l. rewrite recordAll_recorded by (simpl; lia).
    simpl. by rewrite app_nil_r. }
  intros hist. repeat split.
  - rewrite <- (length_fmap rawNotification hist).
    fold (recordedNotifications hist). subst hist.
    by rewrite Hall, length_take, length_reverse.
  - apply Hall.
  - by apply recordAll_built.
  - intros. by rewrite Hall.
Qed.

(** C3: whatever the state, clearHistory returns normally and leaves an
    empty history and no latest notification, the token and the error
    message untouched; clearing again gives the same state. *)
Theorem clearHistory_resets {S : Type} (h : Handler S) (w : World S) :
  let cleared := (run h clearHistory w).2 in
  (run h clearHistory w).1 = Returned () ∧
  notificationHistory (app cleared) = [] ∧
  notification (app cleared) = None ∧
  expoPushToken (app cleared) = expoPushToken (app w) ∧
  errorMsg (app cleared) = errorMsg (app w) ∧
  app (run h clearHistory cleared).2 = app cleared.
Proof. intros cleared. subst cleared. by rewrite !run_clearHistory. Qed.

(* --------------------------------------------------------------------- *)
(* 8. Sessions                                                           *)
(* --------------------------------------------------------------------- *)

Section Session.
Context {S : Type} (h : Handler S) (env : Env).

Lemma session_snoc (acts : list Action) (a : Action) (w : World S) :
  session h env (acts ++ [a]) w = step h env (session h env acts w) a.
Proof. unfold session. by rewrite foldl_app. Qed.

Lemma step_recorded (w : World S) (a : Action) (n : Notification) :
  recorded_by a = Some n →
  ∃ now,
    notificationHistory (app (step h env w a)) =
      newNotification n now :: take 9 (notificationHistory (app w)) ∧
    notification (app (step h env w a)) = Some n ∧
    expoPushToken (app (step h env w a)) = expoPushToken (app w) ∧
    errorMsg (app (step h env w a)) = errorMsg (app w).
Proof.
  unfold step.
  destruct a as [|n'|response| | |]; simpl recorded_by; intros [= <-]; simpl callback.
  - rewrite run_notificationListener.
    destruct (h _ DateToLocaleString (outside w)) as [now s]. by exists now.
  - rewrite run_responseListener, run_notificationListener.
    destruct (h _ DateToLocaleString (outside w)) as [now s]. by exists now.
Qed.

Lemma step_clear (w : World S) :
  notificationHistory (app (step h env w PressClear)) = [] ∧
  notification (app (step h env w PressClear)) = None.
Proof. unfold step. simpl callback. by rewrite run_clearHistory. Qed.

Lemma step_other (w : World S) (a : Action) :
  recorded_by a = None → a ≠ PressClear →
  notificationHistory (app (step h env w a)) = notificationHistory (app w) ∧
  notification (app (step h env w a)) = notification (app w).
Proof.
  unfold step. destruct a; try done; intros _ _; simpl callback.
  - by destruct (run_mountEffect_frame h env w) as (_ & -> & ->).
  - by rewrite run_copyTokenToClipboard_frame.
  - by rewrite run_sendTestNotification_frame.
Qed.

Lemma receivedSinceClear_snoc (acts : list Action) (a : Action) (acc : list Notification) :
  receivedSinceClear (acts ++ [a]) acc =
  match a with
  | PressClear => []
  | _ => match recorded_by a with
         | Some n => receivedSinceClear acts acc ++ [n]
         | None => receivedSinceClear acts acc
         end
  end.
Proof.
  revert acc. induction acts as [|b acts IH]; intros acc.
  - by destruct a.
  - destruct b; simpl; by rewrite IH.
Qed.

(* The two facts every reachable state satisfies. *)
Lemma session_invariant (s : S) (acts : list Action) :
  let st := app (session h env acts (initialWorld s)) in
  recordedNotifications (notificationHistory st) =
    take 10 (reverse (receivedSinceClear acts [])) ∧
  notification st = head (recordedNotifications (notificationHistory st)).
Proof.
  induction acts as [|a acts [IHhist IHlatest]] using rev_ind; [done|].
  simpl in *. rewrite session_snoc, receivedSinceClear_snoc.
  set (w := session h env acts (initialWorld s)) in *.
  destruct (recorded_by a) as [n|] eqn:Hrec.
  - destruct (step_recorded w a n Hrec) as (now & -> & -> & _).
    rewrite recordedNotifications_cons_take, IHhist, take_take.
    destruct a; try done; by rewrite reverse_snoc.
  - destruct a; try done.
    2: by destruct (step_clear w) as [-> ->].
    all: by destruct (step_other w _ Hrec ltac:(done)) as [-> ->].
Qed.

End Session.

(** C2: in every state reached from the initial one by any sequence of
    actions (mount, notifications received or tapped, clear, copy, local
    test) the history has at most 10 entries, and it lists the
    notifications recorded since the last clear in the order they
    arrived, newest first. *)
Theorem history_bounded_in_receipt_order {S : Type} (h : Handler S) (env : Env) (s : S)
    (acts : list Action) :
  let hist := notificationHistory (app (session h env acts (initialWorld s))) in
  length hist ≤ 10 ∧
  recordedNotifications hist = take 10 (reverse (receivedSinceClear acts [])).
Proof.
  intros hist. destruct (session_invariant h env s acts) as [Hhist _].
  fold hist in Hhist. split; [|done].
  rewrite <- (length_fmap rawNotification hist).
  fold (recordedNotifications hist). rewrite Hhist, length_take. lia.
Qed.

(** C4: in every reachable state the latest notification is the one kept
    at the head of the history, and it is absent exactly when the history
    is empty; right after a notification is received or tapped, it is the
    latest one. *)
Theorem latest_is_head_of_history {S : Type} (h : Handler S) (env : Env) (s : S)
    (acts : list Action) :
  let st := app (session h env acts (initialWorld s)) in
  notification st = rawNotification <$> head (notificationHistory st) ∧
  (notification st = None ↔ notificationHistory st = []) ∧
  (∀ n, let st' := app (session h env (acts ++ [NotificationReceived n]) (initialWorld s)) in
        notification st' = Some n ∧
        rawNotification <$> head (notificationHistory st') = Some n) ∧
  (∀ r, let st' := app (session h env (acts ++ [NotificationResponseReceived r])
                          (initialWorld s)) in
        notification st' = Some (response_notification r) ∧
        rawNotification <$> head (notificationHistory st') = Some (response_notification r)).
Proof.
  intros st. destruct (session_invariant h env s acts) as [_ Hlatest].
  fold st in Hlatest.
  assert (Hhead : notification st = rawNotification <$> head (notificationHistory st)).
  { rewrite Hlatest. unfold recordedNotifications. by destruct (notificationHistory st). }
  split; [done|]. split.
  - rewrite Hhead. by destruct (notificationHistory st).
  - split; intros x st'; subst st'; rewrite session_snoc.
    + destruct (step_recorded h env (session h env acts (initialWorld s))
                  (NotificationReceived x) x eq_refl) as (now & -> & -> & _).
      done.
    + destruct (step_recorded h env (session h env acts (initialWorld s))
                  (NotificationResponseReceived x) _ eq_refl) as (now & -> & -> & _).
      done.
Qed.

(* --------------------------------------------------------------------- *)
(* 9. Registration                                                       *)
(* --------------------------------------------------------------------- *)

Section Registration.
Context {S : Type} (h : Handler S) (env : Env).

Lemma callsMade_app {A : Type} (p : Prog A) (w : World S) (calls : list Invocation) :
  trace (run h p w).2 = trace w ++ calls → callsMade h p w = calls.
Proof. unfold callsMade. intros ->. by rewrite drop_app_length. Qed.

(* Only the mount effect writes the token and the error message. *)
Lemma step_registration_frame (w : World S) (a : Action) :
  a ≠ Mount →
  expoPushToken (app (step h env w a)) = expoPushToken (app w) ∧
  errorMsg (app (step h env w a)) = errorMsg (app w).
Proof.
  intros Hne. destruct a; try done.
  - by destruct (step_recorded h env w (NotificationReceived n) n eq_refl)
      as (now & _ & _ & -> & ->).
  - by destruct (step_recorded h env w (NotificationResponseReceived response) _ eq_refl)
      as (now & _ & _ & -> & ->).
  - unfold step. simpl callback. by rewrite run_clearHistory.
  - unfold step. simpl callback. by rewrite run_copyTokenToClipboard_frame.
  - unfold step. simpl callback. by rewrite run_sendTestNotification_frame.
Qed.

Lemma session_registration_frame (acts : list Action) (w : World S) :
  Forall (λ a, a ≠ Mount) acts →
  expoPushToken (app (session h env acts w)) = expoPushToken (app w) ∧
  errorMsg (app (session h env acts w)) = errorMsg (app w).
Proof.
  induction acts as [|a acts IH] using rev_ind; [done|].
  rewrite Forall_app, Forall_singleton. intros [Hacts Ha].
  rewrite session_snoc.
  destruct (step_registration_frame (session h env acts w) a Ha) as [-> ->].
  by apply IH.
Qed.

End Registration.

(** C5: when Device.isDevice is false, registerForPushNotificationsAsync
    throws the emulator error without calling anything, so neither the
    permission query nor the permission request is made; the mount effect
    catches the error and leaves its message in errorMsg, which the
    status line then shows, the token staying as it was. *)
Theorem emulator_is_unsupported {S : Type} (h : Handler S) (env : Env) (w : World S) :
  isDevice env = false →
  run h (registerForPushNotificationsAsync env) w = (Threw {| message := emulatorError |}, w) ∧
  let mounted := (run h (mountEffect env) w).2 in
  (run h (mountEffect env) w).1 = Returned () ∧
  errorMsg (app mounted) = emulatorError ∧
  expoPushToken (app mounted) = expoPushToken (app w) ∧
  notificationStatusText (app mounted) =
    (if truthy (expoPushToken (app w)) then "✅ Ready to receive push notifications"
     else "❌ " +:+ emulatorError) ∧
  trace mounted = trace w ∧
  outside mounted = outside w ∧
  callsMade h (mountEffect env) w = [] ∧
  filter is_permission_call (callsMade h (registerForPushNotificationsAsync env) w) = [].
Proof.
  intros Hdev.
  assert (Hrun : run h (registerForPushNotificationsAsync env) w =
                 (Threw {| message := emulatorError |}, w)).
  { unfold registerForPushNotificationsAsync. by rewrite Hdev. }
  split; [done|].
  unfold mountEffect. rewrite run_try_catch, run_bind, Hrun. simpl.
  assert (Hnone : ∀ l : list Invocation, drop (length l) l = []) by apply drop_all.
  split_and!; try done.
  - unfold callsMade. rewrite run_try_catch, run_bind, Hrun. simpl. apply Hnone.
  - unfold callsMade. rewrite Hrun. simpl. by rewrite Hnone.
Qed.

Lemma emulator_is_unsupported_witness :
  isDevice emulator = false ∧
  errorMsg (app (run scripted (mountEffect emulator)
                   (initialWorld (sampleScript GRANTED GRANTED "ExponentPushToken[x]"))).2) =
    emulatorError.
Proof.
  split; [reflexivity|].
  apply (emulator_is_unsupported scripted emulator
           (initialWorld (sampleScript GRANTED GRANTED "ExponentPushToken[x]"))).
  reflexivity.
Defined.

(** C6: on a physical device, when the permission query answers a status
    other than granted and the permission request that follows answers a
    status other than granted too, registerForPushNotificationsAsync
    throws the permission error after exactly those two calls: the
    permission is requested once and no push token is requested. The
    mount effect ends normally with that message in errorMsg and the
    token untouched, and no later action other than a mount changes
    either. *)
Theorem denied_permission_is_terminal {S : Type} (h : Handler S) (env : Env) (w : World S)
    (existing requested : PermissionResponse) (s1 s2 : S) :
  isDevice env = true →
  h _ GetPermissionsAsync (outside w) = (Resolved existing, s1) →
  is_granted (status existing) = false →
  h _ RequestPermissionsAsync s1 = (Resolved requested, s2) →
  is_granted (status requested) = false →
  run h (registerForPushNotificationsAsync env) w =
    (Threw {| message := permissionError |},
     {| app := app w; outside := s2;
        trace := trace w ++ [Invoke GetPermissionsAsync; Invoke RequestPermissionsAsync] |}) ∧
  let mounted := (run h (mountEffect env) w).2 in
  (run h (mountEffect env) w).1 = Returned () ∧
  errorMsg (app mounted) = permissionError ∧
  expoPushToken (app mounted) = expoPushToken (app w) ∧
  callsMade h (mountEffect env) w =
    [Invoke GetPermissionsAsync; Invoke RequestPermissionsAsync] ∧
  filter is_token_request (callsMade h (mountEffect env) w) = [] ∧
  length (filter is_permission_request (callsMade h (mountEffect env) w)) = 1 ∧
  ∀ acts, Forall (λ a, a ≠ Mount) acts →
    errorMsg (app (session h env acts mounted)) = permissionError ∧
    expoPushToken (app (session h env acts mounted)) = expoPushToken (app w).
Proof.
  intros Hdev Hget Hexisting Hreq Hrequested.
  assert (Hrun : run h (registerForPushNotificationsAsync env) w =
    (Threw {| message := permissionError |},
     {| app := app w; outside := s2;
        trace := trace w ++ [Invoke GetPermissionsAsync; Invoke RequestPermissionsAsync] |})).
  { unfold registerForPushNotificationsAsync. rewrite Hdev. simpl.
    rewrite Hget. simpl. rewrite Hexisting. simpl.
    rewrite Hreq. simpl. rewrite Hrequested. simpl.
    by rewrite <- app_assoc. }
  split; [done|].
  assert (Hmount : run h (mountEffect env) w =
    (Returned (),
     {| app := {| expoPushToken := expoPushToken (app w);
                  notification := notification (app w);
                  notificationHistory := notificationHistory (app w);
                  errorMsg := permissionError |};
        outside := s2;
        trace := trace w ++ [Invoke GetPermissionsAsync; Invoke RequestPermissionsAsync] |})).
  { unfold mountEffect. by rewrite run_try_catch, run_bind, Hrun. }
  assert (Hcalls : callsMade h (mountEffect env) w =
                   [Invoke GetPermissionsAsync; Invoke RequestPermissionsAsync]).
  { apply callsMade_app. by rewrite Hmount. }
  rewrite Hcalls, Hmount. simpl. split_and!; try done.
  intros acts Hacts.
  match goal with |- context [session h env acts ?m] =>
    by destruct (session_registration_frame h env acts m Hacts) as [-> ->]
  end.
Qed.

Lemma denied_permission_is_terminal_witness :
  isDevice physicalDevice = true ∧
  is_granted UNDETERMINED = false ∧
  is_granted DENIED = false ∧
  errorMsg (app (run scripted (mountEffect physicalDevice)
                   (initialWorld (sampleScript UNDETERMINED DENIED "ExponentPushToken[x]"))).2) =
    permissionError ∧
  filter is_token_request
    (callsMade scripted (mountEffect physicalDevice)
       (initialWorld (sampleScript UNDETERMINED DENIED "ExponentPushToken[x]"))) = [].
Proof.
  pose proof (denied_permission_is_terminal scripted physicalDevice
                (initialWorld (sampleScript UNDETERMINED DENIED "ExponentPushToken[x]"))
                {| status := UNDETERMINED |} {| status := DENIED |}
                (sampleScript UNDETERMINED DENIED "ExponentPushToken[x]")
                (sampleScript UNDETERMINED DENIED "ExponentPushToken[x]")
                eq_refl eq_refl eq_refl eq_refl eq_refl) as (_ & _ & Herr & _ & _ & Htok & _).
  exact (conj eq_refl (conj eq_refl (conj eq_refl (conj Herr Htok)))).
Defined.

(* --------------------------------------------------------------------- *)
(* 10. The two buttons                                                   *)
(* --------------------------------------------------------------------- *)

(** C7, as stated, fails: copyTokenToClipboard does not return whether
    a token was available. With a token and without one the callback
    returns the same undefined, so nothing computed from its result
    tells the two apart. *)
Lemma copyToken_result_ignores_token :
  let w := initialWorld (sampleScript GRANTED GRANTED "ExponentPushToken[x]") in
  (run scripted (copyTokenToClipboard "ExponentPushToken[x]") w).1 = Returned () ∧
  (run scripted (copyTokenToClipboard "") w).1 = Returned () ∧
  ¬ ∃ decode : Outcome unit → bool,
      decode (run scripted (copyTokenToClipboard "ExponentPushToken[x]") w).1 = true ∧
      decode (run scripted (copyTokenToClipboard "") w).1 = false.
Proof.
  intros w. split_and!; [reflexivity..|].
  intros (decode & Htrue & Hfalse).
  change (decode (Returned ()) = true) in Htrue.
  change (decode (Returned ()) = false) in Hfalse.
  congruence.
Qed.

(** C7, amended: copyTokenToClipboard returns no value. It writes the
    token to the clipboard, once and as its first call, exactly when the
    token is a non-empty string; if the write resolves it then shows the
    Success alert and returns undefined; if the write is rejected it
    throws the rejection after that one call, showing no alert. With an
    empty token it writes nothing, shows the Error alert "No token
    available to copy" and returns undefined. So its result is undefined
    or the rejection of the write, never a boolean, and it never changes
    the state. *)
Theorem copyToken_writes_iff_token {S : Type} (h : Handler S) (token : string) (w : World S) :
  let calls := callsMade h (copyTokenToClipboard token) w in
  let result := (run h (copyTokenToClipboard token) w).1 in
  filter is_clipboard_write calls =
    (if decide (token = "") then [] else [Invoke (ClipboardSetStringAsync token)]) ∧
  (Invoke (ClipboardSetStringAsync token) ∈ calls ↔ token ≠ "") ∧
  (token ≠ "" → head calls = Some (Invoke (ClipboardSetStringAsync token))) ∧
  (token ≠ "" →
   (h _ (ClipboardSetStringAsync token) (outside w)).1 = Resolved () →
   result = Returned () ∧
   calls = [Invoke (ClipboardSetStringAsync token);
            Invoke (AlertAlert "Success" copiedMessage)]) ∧
  (token = "" →
   result = Returned () ∧
   calls = [Invoke (AlertAlert "Error" "No token available to copy")]) ∧
  app (run h (copyTokenToClipboard token) w).2 = app w ∧
  (token ≠ "" →
   ∀ e, (h _ (ClipboardSetStringAsync token) (outside w)).1 = Rejected e →
        result = Threw e ∧ calls = [Invoke (ClipboardSetStringAsync token)]) ∧
  (result = Returned () ∨
   ∃ e, result = Threw e ∧ token ≠ "" ∧
        (h _ (ClipboardSetStringAsync token) (outside w)).1 = Rejected e).
Proof.
  intros calls result. subst calls result.
  unfold callsMade, copyTokenToClipboard, truthy.
  destruct (decide (token = "")) as [->|Hne].
  - simpl. destruct (h _ (AlertAlert _ _) (outside w)) as [[] s]. simpl.
    rewrite drop_app_length. split_and!; try done; [|by left].
    split; [|done]. intros Hin. apply list_elem_of_singleton in Hin. discriminate Hin.
  - rewrite bool_decide_true by done. simpl.
    destruct (h _ (ClipboardSetStringAsync token) (outside w)) as [[[]|e] s]; simpl.
    + destruct (h _ (AlertAlert _ _) s) as [[] s']. simpl.
      rewrite <- app_assoc, drop_app_length. simpl.
      split_and!; try done; [|by left].
      split; [done|]. intros _. apply list_elem_of_here.
    + rewrite drop_app_length. simpl.
      split_and!; try done.
      * split; [done|]. intros _. apply list_elem_of_here.
      * by intros _ e' [= <-].
      * right. by exists e.
Qed.

(** C9: sendTestNotification first asks for the fixed test notification
    to be scheduled, two seconds ahead, with its fixed title, body and
    payload, and asks for nothing else to be scheduled; whatever the
    outside answers, the history, the latest notification, the token and
    the error message are afterwards what they were. *)
Theorem sendTestNotification_only_schedules {S : Type} (h : Handler S) (w : World S) :
  let calls := callsMade h sendTestNotification w in
  app (run h sendTestNotification w).2 = app w ∧
  head calls = Some (Invoke (ScheduleNotificationAsync testNotification)) ∧
  filter is_schedule_call calls = [Invoke (ScheduleNotificationAsync testNotification)] ∧
  trigger_seconds testNotification = 2%Z ∧
  input_title (input_content testNotification) = "Test Notification 📬" ∧
  input_body (input_content testNotification) = "This is a local test notification!" ∧
  input_data (input_content testNotification) =
    {[ "testData" := JsString "Test notification data" ]}.
Proof.
  intros calls. subst calls. unfold callsMade, sendTestNotification. simpl.
  destruct (h _ (ScheduleNotificationAsync _) (outside w)) as [[[]|e] s]; simpl.
  - destruct (h _ (AlertAlert _ _) s) as [[] s']. simpl.
    by rewrite <- app_assoc, drop_app_length.
  - by rewrite drop_app_length.
Qed.

(* --------------------------------------------------------------------- *)
(* 11. The entries of the history                                        *)
(* --------------------------------------------------------------------- *)

Lemma string_or_nonempty (v : option string) (d : string) :
  d ≠ "" → string_or v d ≠ "".
Proof. intros Hd. unfold string_or. destruct v as [s|]; [|done]. by case_decide. Qed.

Lemma newNotification_populated (n : Notification) (now : string) :
  populated (newNotification n now).
Proof. split; by apply string_or_nonempty. Qed.

Lemma newNotification_built (n : Notification) (now : string) :
  built_by_addToHistory (newNotification n now).
Proof. done. Qed.

Lemma count_id_cons (i : string) (e : HistoryEntry) (hist : list HistoryEntry) :
  count_id i (e :: hist) =
  (if decide (id e = i) then 1 else 0) + count_id i hist.
Proof. unfold count_id. rewrite filter_cons. by case_decide. Qed.

Lemma count_id_elem_of (i : string) (e : HistoryEntry) (hist : list HistoryEntry) :
  e ∈ hist → id e = i → 1 ≤ count_id i hist.
Proof.
  intros Hin Hid. unfold count_id.
  assert (Hfil : e ∈ filter (λ e, id e = i) hist) by by apply list_elem_of_filter.
  destruct (filter _ hist); [by apply elem_of_nil in Hfil|simpl; lia].
Qed.

Lemma session_entries {S : Type} (h : Handler S) (env : Env) (s : S) (acts : list Action) :
  Forall (λ e, built_by_addToHistory e ∧ populated e)
    (notificationHistory (app (session h env acts (initialWorld s)))).
Proof.
  induction acts as [|a acts IH] using rev_ind; [by constructor|].
  rewrite session_snoc.
  set (w := session h env acts (initialWorld s)) in *.
  destruct (recorded_by a) as [n|] eqn:Hrec.
  - destruct (step_recorded h env w a n Hrec) as (now & -> & _).
    constructor; [|by apply Forall_take].
    split; [apply newNotification_built|apply newNotification_populated].
  - destruct a; try done.
    2: destruct (step_clear h env w) as [-> _]; by constructor.
    all: by destruct (step_other h env w _ Hrec ltac:(done)) as [-> _].
Qed.

(** C8, as stated, fails: recording a notification whose id already
    occurs in the history does not always leave two entries with that
    id. In the full history reached by recording 'dup', 'a', ..., 'i'
    the id 'dup' occurs once, in the tenth place; recording 'dup' again
    puts the new entry at the head and drops the tenth, and the id still
    occurs once. *)
Lemma record_tenth_place_duplicate_evicted :
  let before := notificationHistory (app tenthPlaceWorld) in
  let after :=
    notificationHistory (app (record scripted tenthPlaceWorld (sampleNotification "dup"))) in
  id <$> before = ["i"; "h"; "g"; "f"; "e"; "d"; "c"; "b"; "a"; "dup"] ∧
  count_id "dup" before = 1 ∧
  id <$> after = ["dup"; "i"; "h"; "g"; "f"; "e"; "d"; "c"; "b"; "a"] ∧
  count_id "dup" after = 1 ∧
  ¬ 2 ≤ count_id "dup" after.
Proof.
  assert (Hafter : count_id "dup"
                     (notificationHistory
                        (app (record scripted tenthPlaceWorld (sampleNotification "dup")))) = 1)
    by by vm_compute.
  intros before after. subst before after. rewrite Hafter.
  split_and!; [by vm_compute..|lia].
Qed.

(** C8, amended: addToHistory never looks at the ids already in the
    history: the new entry always goes to the head, in front of the
    first nine old entries, so the number of entries with its id is one
    more than among those nine. It is at least two when one of those
    nine has that id already, in particular when the id occurs anywhere
    in a history of fewer than ten entries; an entry in the tenth place
    is dropped by the same insertion. A notification delivered to the
    foreground listener and then to the tap listener is kept twice. *)
Theorem record_does_not_deduplicate {S : Type} (h : Handler S) (env : Env) (w : World S)
    (n : Notification) :
  let i := identifier (request n) in
  let before := notificationHistory (app w) in
  let after := notificationHistory (app (record h w n)) in
  (∃ now, after = newNotification n now :: take 9 before) ∧
  count_id i after = Datatypes.S (count_id i (take 9 before)) ∧
  (∀ e, e ∈ take 9 before → id e = i → 2 ≤ count_id i after) ∧
  (∀ (s : S) (action : string),
     let tapped := {| actionIdentifier := action; response_notification := n |} in
     let hist := notificationHistory
                   (app (session h env
                           [NotificationReceived n; NotificationResponseReceived tapped]
                           (initialWorld s))) in
     recordedNotifications hist = [n; n] ∧ count_id i hist = 2) ∧
  (∀ e, length before < 10 → e ∈ before → id e = i → 2 ≤ count_id i after) ∧
  (10 ≤ length before → length after = 10 ∧ drop 1 after = take 9 before).
Proof.
  intros i before after.
  assert (Hcount : count_id i after = Datatypes.S (count_id i (take 9 before))).
  { subst after. destruct (record_history h w n) as [now ->].
    rewrite count_id_cons. simpl. by rewrite decide_True. }
  split_and!.
  - apply record_history.
  - done.
  - intros e Hin Hid. rewrite Hcount.
    pose proof (count_id_elem_of i e _ Hin Hid). lia.
  - intros s action tapped hist. subst hist. simpl.
    destruct (step_recorded h env (initialWorld s) (NotificationReceived n) n eq_refl)
      as (now1 & Hfirst & _).
    destruct (step_recorded h env (step h env (initialWorld s) (NotificationReceived n))
                (NotificationResponseReceived tapped) n eq_refl) as (now2 & -> & _).
    rewrite Hfirst. simpl. split; [done|].
    rewrite !count_id_cons. simpl. by rewrite decide_True.
  - intros e Hlen Hin Hid. rewrite Hcount.
    rewrite take_ge in * by lia.
    pose proof (count_id_elem_of i e _ Hin Hid). lia.
  - intros Hlen. subst after. destruct (record_history h w n) as [now ->].
    simpl. split; [|done].
    rewrite length_take. fold before. lia.
Qed.

(** C10: addToHistory stores, at the head of the history, the entry
    built from the notification it is given, and both listeners store
    the entry built from the notification delivered to them. That entry
    shows "No Title" when the title of the notification is absent or
    empty and the title itself otherwise, "No Body" when the body is
    absent or empty and the body itself otherwise, and the empty mapping
    when the data is absent and the data itself otherwise; so its title
    and body are never empty. Every entry of every reachable history is
    such an entry, built from one of the notifications delivered since
    the last clear: the history lists the ten newest of them. *)
Theorem stored_entries_are_populated {S : Type} (h : Handler S) (env : Env) (s : S)
    (acts : list Action) :
  (∀ (n : Notification) (now : string),
     let c := content (request n) in
     let e := newNotification n now in
     ((title c = None ∨ title c = Some "") → entry_title e = "No Title") ∧
     (∀ t, title c = Some t → t ≠ "" → entry_title e = t) ∧
     ((body c = None ∨ body c = Some "") → entry_body e = "No Body") ∧
     (∀ b, body c = Some b → b ≠ "" → entry_body e = b) ∧
     (data c = None → entry_data e = ∅) ∧
     (∀ d, data c = Some d → entry_data e = d) ∧
     populated e) ∧
  Forall (λ e, built_by_addToHistory e ∧ populated e)
    (notificationHistory (app (session h env acts (initialWorld s)))) ∧
  (∀ (w : World S) (n : Notification),
     ∃ now, notificationHistory (app (record h w n)) =
            newNotification n now :: take 9 (notificationHistory (app w))) ∧
  (∀ (w : World S) (n : Notification),
     ∃ now, notificationHistory (app (step h env w (NotificationReceived n))) =
            newNotification n now :: take 9 (notificationHistory (app w))) ∧
  (∀ (w : World S) (r : NotificationResponse),
     ∃ now, notificationHistory (app (step h env w (NotificationResponseReceived r))) =
            newNotification (response_notification r) now ::
              take 9 (notificationHistory (app w))) ∧
  recordedNotifications (notificationHistory (app (session h env acts (initialWorld s)))) =
    take 10 (reverse (receivedSinceClear acts [])).
Proof.
  split; [|split_and!].
  2: apply session_entries.
  2: apply record_history.
  2: { intros w n.
       destruct (step_recorded h env w (NotificationReceived n) n eq_refl) as (now & Hh & _).
       by exists now. }
  2: { intros w r.
       destruct (step_recorded h env w (NotificationResponseReceived r) _ eq_refl)
         as (now & Hh & _).
       by exists now. }
  2: by destruct (session_invariant h env s acts) as [Hhist _].
  intros n now c e. subst e. simpl. fold c. split_and!.
  - by intros [->| ->].
  - intros t -> Ht. simpl. by rewrite decide_False.
  - by intros [->| ->].
  - intros b -> Hb. simpl. by rewrite decide_False.
  - by intros ->.
  - by intros d ->.
  - apply newNotification_populated.
Qed.

(* --------------------------------------------------------------------- *)
(* 12. Concrete runs                                                     *)
(* --------------------------------------------------------------------- *)

Example eleven_notifications :
  let ns := sampleNotification <$> ["A"; "B"; "C"; "D"; "E"; "F"; "G"; "H"; "I"; "J"; "K"] in
  let hist := notificationHistory
                (app (recordAll scripted ns (initialWorld (sampleScript GRANTED GRANTED "t")))) in
  id <$> hist = ["K"; "J"; "I"; "H"; "G"; "F"; "E"; "D"; "C"; "B"] ∧
  timestamp <$> hist = ["10"; "9"; "8"; "7"; "6"; "5"; "4"; "3"; "2"; "1"].
Proof. by vm_compute. Qed.

Example bare_notification_entry :
  let e := newNotification bareNotification "now" in
  entry_title e = "No Title" ∧ entry_body e = "No Body" ∧ entry_data e = ∅ ∧ id e = "bare".
Proof. by vm_compute. Qed.

Example granted_mount :
  let w := (run scripted (mountEffect physicalDevice)
              (initialWorld (sampleScript GRANTED DENIED "ExponentPushToken[x]"))).2 in
  expoPushToken (app w) = "ExponentPushToken[x]" ∧
  errorMsg (app w) = "" ∧
  trace w = [Invoke GetPermissionsAsync;
             Invoke (GetExpoPushTokenAsync None);
             Invoke (SetNotificationChannelAsync "default" defaultChannel)].
Proof. by vm_compute. Qed.

Example granted_after_request_mount :
  let w := (run scripted (mountEffect physicalDevice)
              (initialWorld (sampleScript UNDETERMINED GRANTED "ExponentPushToken[x]"))).2 in
  notificationStatusText (app w) = "✅ Ready to receive push notifications" ∧
  trace w = [Invoke GetPermissionsAsync;
             Invoke RequestPermissionsAsync;
             Invoke (GetExpoPushTokenAsync None);
             Invoke (SetNotificationChannelAsync "default" defaultChannel)].
Proof. by vm_compute. Qed.

Example received_then_cleared :
  let w := session scripted physicalDevice
             [Mount; NotificationReceived (sampleNotification "A");
              NotificationReceived bareNotification; PressClear;
              NotificationReceived (sampleNotification "B"); PressSendTest]
             (initialWorld (sampleScript GRANTED GRANTED "ExponentPushToken[x]")) in
  id <$> notificationHistory (app w) = ["B"] ∧
  notification (app w) = Some (sampleNotification "B") ∧
  expoPushToken (app w) = "ExponentPushToken[x]".
Proof. by vm_compute. Qed.

(* --------------------------------------------------------------------- *)
(* 13. Registration, whatever the outside answers                        *)
(* --------------------------------------------------------------------- *)

(* Case analysis on what the outside answers, keeping the answers. *)
Ltac crunch_eqn h :=
  repeat (simpl;
    match goal with
    | |- context [h ?X ?c ?s] => destruct (h X c s) as [? ?] eqn:?
    | |- context [match ?x with Resolved _ => _ | Rejected _ => _ end] => destruct x
    | |- context [is_granted (status ?x)] => destruct x as [[]]
    | |- context [decide ?P] => destruct (decide P)
    end); simpl.

Lemma drop_length_nil {A : Type} (l : list A) : drop (length l) l = [].
Proof. apply drop_all. Qed.

Lemma run_register_app {S : Type} (h : Handler S) (env : Env) (w : World S) :
  app (run h (registerForPushNotificationsAsync env) w).2 = app w.
Proof. unfold registerForPushNotificationsAsync. crunch h. Qed.

(** X1: the mount effect never throws. It makes the calls of
    registerForPushNotificationsAsync and no others; when that returns a
    token the token is stored and the error message kept, when it throws
    the message of the error is stored and the token kept; the latest
    notification and the history are not touched. *)
Theorem mountEffect_stores_outcome {S : Type} (h : Handler S) (env : Env) (w : World S) :
  let registered := run h (registerForPushNotificationsAsync env) w in
  let mounted := run h (mountEffect env) w in
  mounted.1 = Returned () ∧
  trace mounted.2 = trace registered.2 ∧
  outside mounted.2 = outside registered.2 ∧
  notification (app mounted.2) = notification (app w) ∧
  notificationHistory (app mounted.2) = notificationHistory (app w) ∧
  match registered.1 with
  | Returned token =>
      expoPushToken (app mounted.2) = token ∧ errorMsg (app mounted.2) = errorMsg (app w)
  | Threw e =>
      errorMsg (app mounted.2) = message e ∧
      expoPushToken (app mounted.2) = expoPushToken (app w)
  end.
Proof.
  intros registered mounted. subst mounted. unfold mountEffect.
  rewrite run_try_catch, run_bind. fold registered.
  pose proof (run_register_app h env w) as Happ. fold registered in Happ.
  destruct registered as [[token|e] w']; simpl in *; by rewrite Happ.
Qed.

(** X2: on a physical device, once the permission query has resolved,
    the permission is requested exactly when the status it reported is
    not granted, and then once; the query itself is the first call. *)
Theorem permission_requested_iff_not_granted {S : Type} (h : Handler S) (env : Env)
    (w : World S) (existing : PermissionResponse) (s1 : S) :
  isDevice env = true →
  h _ GetPermissionsAsync (outside w) = (Resolved existing, s1) →
  let calls := callsMade h (registerForPushNotificationsAsync env) w in
  head calls = Some (Invoke GetPermissionsAsync) ∧
  filter is_permission_request calls =
    (if is_granted (status existing) then [] else [Invoke RequestPermissionsAsync]).
Proof.
  intros Hdev Hget calls. subst calls.
  unfold registerForPushNotificationsAsync. rewrite Hdev. unfold callsMade. simpl.
  rewrite Hget. destruct existing as [[]]; crunch h.
  all: rewrite <- ?app_assoc, ?drop_app_length; by simpl.
Qed.

Lemma permission_requested_iff_not_granted_witness :
  isDevice physicalDevice = true ∧
  filter is_permission_request
    (callsMade scripted (registerForPushNotificationsAsync physicalDevice)
       (initialWorld (sampleScript GRANTED DENIED "ExponentPushToken[x]"))) = [].
Proof.
  split; [reflexivity|].
  apply (permission_requested_iff_not_granted scripted physicalDevice
           (initialWorld (sampleScript GRANTED DENIED "ExponentPushToken[x]"))
           {| status := GRANTED |} (sampleScript GRANTED DENIED "ExponentPushToken[x]")
           eq_refl eq_refl).
Defined.

(** X3: a push token is requested only on a physical device and only
    after a permission call has resolved to granted: either the query
    did, or the query resolved to something else and the request that
    followed resolved to granted. *)
Theorem token_requested_only_when_granted {S : Type} (h : Handler S) (env : Env)
    (w : World S) :
  filter is_token_request (callsMade h (registerForPushNotificationsAsync env) w) ≠ [] →
  isDevice env = true ∧
  ∃ existing s1,
    h _ GetPermissionsAsync (outside w) = (Resolved existing, s1) ∧
    (is_granted (status existing) = true ∨
     ∃ requested s2,
       h _ RequestPermissionsAsync s1 = (Resolved requested, s2) ∧
       is_granted (status requested) = true).
Proof.
  unfold registerForPushNotificationsAsync, callsMade.
  destruct (isDevice env) eqn:Hdev; simpl.
  2: by rewrite drop_length_nil.
  crunch_eqn h.
  all: rewrite <- ?app_assoc, ?drop_app_length; simpl; intros Hcalls; try done.
  all: split; [done|]; eauto 10.
Qed.

Lemma token_requested_only_when_granted_witness :
  isDevice physicalDevice = true ∧
  ∃ existing s1,
    scripted _ GetPermissionsAsync
      (outside (initialWorld (sampleScript DENIED GRANTED "ExponentPushToken[x]"))) =
      (Resolved existing, s1) ∧
    (is_granted (status existing) = true ∨
     ∃ requested s2,
       scripted _ RequestPermissionsAsync s1 = (Resolved requested, s2) ∧
       is_granted (status requested) = true).
Proof.
  apply (token_requested_only_when_granted scripted physicalDevice
           (initialWorld (sampleScript DENIED GRANTED "ExponentPushToken[x]"))).
  vm_compute. discriminate.
Defined.

(** X4: registerForPushNotificationsAsync never repeats a call: whatever
    the outside answers, it makes at most one permission query, one
    permission request, one token request and one channel
    configuration, four calls at most, and it makes no call of any other
    kind. *)
Theorem register_never_retries {S : Type} (h : Handler S) (env : Env) (w : World S) :
  let calls := callsMade h (registerForPushNotificationsAsync env) w in
  length (filter is_permission_call calls) ≤ 2 ∧
  length (filter is_permission_request calls) ≤ 1 ∧
  length (filter is_token_request calls) ≤ 1 ∧
  length (filter is_channel_call calls) ≤ 1 ∧
  length calls ≤ 4 ∧
  length (filter is_permission_query calls) ≤ 1 ∧
  Forall (λ i, is_permission_query i || is_permission_request i ||
               is_token_request i || is_channel_call i = true) calls.
Proof.
  intros calls. subst calls.
  unfold registerForPushNotificationsAsync, callsMade.
  destruct (isDevice env); simpl.
  2: rewrite drop_length_nil; simpl; split_and!; [lia..|by constructor].
  crunch h.
  all: rewrite <- ?app_assoc, ?drop_app_length; simpl.
  all: split_and!; [lia..|by repeat constructor].
Qed.

(** X5: the notification channel is configured only when Platform.OS is
    'android', and only as the last call, right after a token request
    that resolved; it is always the channel 'default' with the fixed
    settings. *)
Theorem channel_configured_only_after_token {S : Type} (h : Handler S) (env : Env)
    (w : World S) :
  let calls := callsMade h (registerForPushNotificationsAsync env) w in
  (platformOS env ≠ "android" → filter is_channel_call calls = []) ∧
  (filter is_channel_call calls ≠ [] →
   platformOS env = "android" ∧
   ∃ pre,
     calls = pre ++ [Invoke (GetExpoPushTokenAsync (configuredProjectId (Constants env)));
                     Invoke (SetNotificationChannelAsync "default" defaultChannel)] ∧
     ∃ s token s',
       h _ (GetExpoPushTokenAsync (configuredProjectId (Constants env))) s =
         (Resolved token, s')).
Proof.
  intros calls. subst calls.
  unfold registerForPushNotificationsAsync, callsMade.
  destruct (isDevice env); simpl.
  2: by rewrite drop_length_nil.
  crunch_eqn h.
  all: rewrite <- ?app_assoc, ?drop_app_length; simpl.
  all: split; [done|]; intros Hcalls; try done.
  all: split; [done|].
  all: first
    [ exists [Invoke GetPermissionsAsync]; split; [done|]; by eauto
    | exists [Invoke GetPermissionsAsync; Invoke RequestPermissionsAsync];
      split; [done|]; by eauto ].
Qed.



(** X7: when registerForPushNotificationsAsync returns a token, the
    device is physical, the calls made were the permission query, the
    permission request or not, the token request with the configured
    project id and, on Android exactly, the channel configuration, in
    this order; the token returned is the data of what the token request
    resolved to. *)
Theorem register_success_means_token_fetched {S : Type} (h : Handler S) (env : Env)
    (w : World S) (token : string) :
  (run h (registerForPushNotificationsAsync env) w).1 = Returned token →
  isDevice env = true ∧
  ∃ pre,
    (pre = [Invoke GetPermissionsAsync] ∨
     pre = [Invoke GetPermissionsAsync; Invoke RequestPermissionsAsync]) ∧
    callsMade h (registerForPushNotificationsAsync env) w =
      pre ++ Invoke (GetExpoPushTokenAsync (configuredProjectId (Constants env))) ::
        (if decide (platformOS env = "android")
         then [Invoke (SetNotificationChannelAsync "default" defaultChannel)]
         else []) ∧
    ∃ s s',
      h _ (GetExpoPushTokenAsync (configuredProjectId (Constants env))) s =
        (Resolved {| token_data := token |}, s').
Proof.
  unfold registerForPushNotificationsAsync, callsMade.
  destruct (isDevice env); simpl; [|done].
  crunch_eqn h.
  all: intros [= <-] || (intros; discriminate).
  all: split; [done|].
  all: rewrite <- ?app_assoc, ?drop_app_length; simpl.
  all: repeat match goal with x : ExpoPushToken |- _ => destruct x end; simpl.
  all: first
    [ exists [Invoke GetPermissionsAsync];
      split; [by left|]; split; [by rewrite ?decide_True, ?decide_False by done|]; by eauto
    | exists [Invoke GetPermissionsAsync; Invoke RequestPermissionsAsync];
      split; [by right|]; split; [by rewrite ?decide_True, ?decide_False by done|];
      by eauto ].
Qed.

Lemma register_success_means_token_fetched_witness :
  isDevice physicalDevice = true ∧
  ∃ pre,
    (pre = [Invoke GetPermissionsAsync] ∨
     pre = [Invoke GetPermissionsAsync; Invoke RequestPermissionsAsync]) ∧
    callsMade scripted (registerForPushNotificationsAsync physicalDevice)
      (initialWorld (sampleScript UNDETERMINED GRANTED "ExponentPushToken[x]")) =
      pre ++ Invoke (GetExpoPushTokenAsync (configuredProjectId (Constants physicalDevice))) ::
        (if decide (platformOS physicalDevice = "android")
         then [Invoke (SetNotificationChannelAsync "default" defaultChannel)]
         else []) ∧
    ∃ s s',
      scripted _ (GetExpoPushTokenAsync (configuredProjectId (Constants physicalDevice))) s =
        (Resolved {| token_data := "ExponentPushToken[x]" |}, s').
Proof.
  apply (register_success_means_token_fetched scripted physicalDevice
           (initialWorld (sampleScript UNDETERMINED GRANTED "ExponentPushToken[x]"))
           "ExponentPushToken[x]").
  reflexivity.
Defined.

(* --------------------------------------------------------------------- *)
(* 14. The view                                                          *)
(* --------------------------------------------------------------------- *)

Lemma append_last_inj (s1 s2 : string) (c1 c2 : ascii) :
  s1 +:+ String c1 "" = s2 +:+ String c2 "" → s1 = s2 ∧ c1 = c2.
Proof.
  revert s2. induction s1 as [|a s1 IH]; intros [|b s2]; simpl; intros Heq.
  - by injection Heq.
  - injection Heq as -> Heq. by destruct s2.
  - injection Heq as -> Heq. by destruct s1.
  - injection Heq as -> Heq. by apply IH in Heq as [-> ->].
Qed.

Lemma pretty_one_digit (i : nat) : i < 10 → ∃ c, pretty i = String c "".
Proof.
  intros Hi. do 10 (destruct i as [|i]; [eexists; reflexivity|]). lia.
Qed.

Lemma historyKeys_NoDup (hist : list HistoryEntry) :
  length hist ≤ 10 → NoDup (historyKeys hist).
Proof.
  intros Hlen. apply NoDup_alt. intros i j key Hi Hj.
  unfold historyKeys in *. rewrite list_lookup_imap in Hi, Hj.
  destruct (hist !! i) as [ei|] eqn:Hei; [|done].
  destruct (hist !! j) as [ej|] eqn:Hej; [|done].
  simpl in *. injection Hi as <-. injection Hj as Hj.
  apply lookup_lt_Some in Hei, Hej.
  destruct (pretty_one_digit i) as [ci Hci]; [lia|].
  destruct (pretty_one_digit j) as [cj Hcj]; [lia|].
  rewrite Hci, Hcj in Hj. apply append_last_inj in Hj as [_ Hc].
  apply (inj pretty). congruence.
Qed.

(** X8: in every reachable state the React keys of the history items,
    item.id + index, are pairwise distinct, even when several items
    carry the same id: with at most ten items every index is a single
    digit. *)
Theorem history_keys_distinct {S : Type} (h : Handler S) (env : Env) (s : S)
    (acts : list Action) :
  NoDup (historyKeys (notificationHistory (app (session h env acts (initialWorld s))))).
Proof.
  apply historyKeys_NoDup.
  destruct (session_invariant h env s acts) as [Hhist _].
  rewrite <- (length_fmap rawNotification).
  fold (recordedNotifications
          (notificationHistory (app (session h env acts (initialWorld s))))).
  rewrite Hhist, length_take. lia.
Qed.

(* Beyond ten items the keys could collide: id '11' at index 1 and
   id '1' at index 11. *)
Example keys_collide_beyond_ten :
  let item i := newNotification (sampleNotification i) "now" in
  let hist := item "0" :: item "11" :: replicate 9 (item "0") ++ [item "1"] in
  length hist = 12 ∧
  historyKeys hist !! 1 = Some "111" ∧
  historyKeys hist !! 11 = Some "111".
Proof. by vm_compute. Qed.

Lemma step_offered_no_error_alert {S : Type} (h : Handler S) (env : Env) (w : World S)
    (a : Action) :
  offered (app w) a = true →
  Forall (λ i, is_error_alert i = false) (trace w) →
  Forall (λ i, is_error_alert i = false) (trace (step h env w a)).
Proof.
  intros Hoffered Htrace. unfold step.
  destruct a; simpl callback; simpl in Hoffered.
  - unfold mountEffect, registerForPushNotificationsAsync. crunch h.
    all: rewrite ?Forall_app; repeat split; try done; by repeat constructor.
  - rewrite run_notificationListener.
    destruct (h _ DateToLocaleString (outside w)). simpl.
    rewrite Forall_app. split; [done|]. by repeat constructor.
  - rewrite run_responseListener, run_notificationListener.
    destruct (h _ DateToLocaleString (outside w)). simpl.
    rewrite Forall_app. split; [done|]. by repeat constructor.
  - rewrite run_clearHistory. simpl.
    rewrite Forall_app. split; [done|]. by repeat constructor.
  - unfold copyTokenToClipboard. unfold tokenSectionShown in Hoffered.
    rewrite Hoffered. crunch h.
    all: rewrite ?Forall_app; repeat split; try done; by repeat constructor.
  - unfold sendTestNotification. crunch h.
    all: rewrite ?Forall_app; repeat split; try done; by repeat constructor.
Qed.

(** X9: as long as only rendered buttons are pressed, no alert titled
    'Error' is ever shown: the copy button exists only while the token
    is non-empty, so the 'No token available to copy' branch of
    copyTokenToClipboard is never taken. *)
Theorem error_alert_never_shown {S : Type} (h : Handler S) (env : Env) (s : S)
    (acts : list Action) :
  Forall (λ i, is_error_alert i = false) (trace (uiSession h env acts (initialWorld s))) ∧
  Invoke (AlertAlert "Error" "No token available to copy") ∉
    trace (uiSession h env acts (initialWorld s)).
Proof.
  assert (Hall : Forall (λ i, is_error_alert i = false)
                   (trace (uiSession h env acts (initialWorld s)))).
  { induction acts as [|a acts IH] using rev_ind; [by constructor|].
    unfold uiSession in *. rewrite foldl_app. simpl. unfold uiStep at 1.
    destruct (offered _ a) eqn:Hoffered; [|done].
    by apply step_offered_no_error_alert. }
  split; [done|]. intros Hin.
  rewrite Forall_forall in Hall. by apply Hall in Hin.
Qed.

(** X10: a history item carries the custom-data mark exactly when the
    detail panel shows the Custom Data row for the notification it was
    built from: null data becomes the empty object, which has no keys.
    This holds for every item of every reachable history. *)
Theorem custom_data_mark_agrees {S : Type} (h : Handler S) (env : Env) (s : S)
    (acts : list Action) :
  (∀ (n : Notification) (now : string),
     customDataMarked (newNotification n now) = customDataShown n) ∧
  Forall (λ item, customDataMarked item = customDataShown (rawNotification item))
    (notificationHistory (app (session h env acts (initialWorld s)))).
Proof.
  assert (Hnew : ∀ (n : Notification) (now : string),
            customDataMarked (newNotification n now) = customDataShown n).
  { intros n now. unfold customDataMarked, customDataShown. simpl.
    destruct (data (content (request n))) as [d|]; [done|].
    simpl. by rewrite map_size_empty. }
  split; [done|].
  eapply Forall_impl; [apply session_entries|].
  intros item [Hbuilt _]. simpl. unfold built_by_addToHistory in Hbuilt.
  rewrite Hbuilt at 1. apply Hnew.
Qed.

(** X11: only the mount effect changes what the status line and the
    token section show: after any sequence of notifications, taps and
    button presses the status text is the same and the token section is
    shown or hidden as before. *)
Theorem status_line_changes_only_on_mount {S : Type} (h : Handler S) (env : Env)
    (acts : list Action) (w : World S) :
  Forall (λ a, a ≠ Mount) acts →
  notificationStatusText (app (session h env acts w)) = notificationStatusText (app w) ∧
  tokenSectionShown (app (session h env acts w)) = tokenSectionShown (app w).
Proof.
  intros Hacts. unfold notificationStatusText, tokenSectionShown.
  by destruct (session_registration_frame h env acts w Hacts) as [-> ->].
Qed.

Lemma status_line_changes_only_on_mount_witness :
  notificationStatusText
    (app (session scripted physicalDevice
            [NotificationReceived (sampleNotification "A"); PressCopyToken; PressClear;
             PressSendTest]
            (session scripted physicalDevice [Mount]
               (initialWorld (sampleScript GRANTED GRANTED "ExponentPushToken[x]"))))) =
  "✅ Ready to receive push notifications".
Proof.
  refine (eq_trans
            (proj1 (status_line_changes_only_on_mount scripted physicalDevice
                      [NotificationReceived (sampleNotification "A"); PressCopyToken;
                       PressClear; PressSendTest]
                      (session scripted physicalDevice [Mount]
                         (initialWorld (sampleScript GRANTED GRANTED "ExponentPushToken[x]")))
                      _))
            eq_refl).
  repeat constructor; discriminate.
Defined.

(** X12: in every reachable state the number of history items, which the
    header of the history section displays, is the number of
    notifications recorded since the last clear, capped at 10; the
    history section is rendered exactly when that number is not zero,
    and exactly when there is a latest notification to show. *)
Theorem history_section_counts_recorded {S : Type} (h : Handler S) (env : Env) (s : S)
    (acts : list Action) :
  let st := app (session h env acts (initialWorld s)) in
  length (notificationHistory st) = 10 `min` length (receivedSinceClear acts []) ∧
  (historySectionShown st = true ↔ receivedSinceClear acts [] ≠ []) ∧
  (historySectionShown st = true ↔ is_Some (notification st)).
Proof.
  intros st. destruct (session_invariant h env s acts) as [Hhist Hlatest].
  fold st in Hhist, Hlatest.
  assert (Hlen : length (notificationHistory st) =
                 10 `min` length (receivedSinceClear acts [])).
  { rewrite <- (length_fmap rawNotification).
    fold (recordedNotifications (notificationHistory st)).
    by rewrite Hhist, length_take, length_reverse. }
  unfold historySectionShown. rewrite bool_decide_eq_true.
  split_and!; [done| |].
  - rewrite Hlen. destruct (receivedSinceClear acts []); simpl; [|split; [done|lia]].
    split; [lia|done].
  - rewrite Hlatest. unfold recordedNotifications.
    destruct (notificationHistory st); simpl.
    + split; [lia|]. by intros [? ?].
    + split; [by eexists|lia].
Qed.

(** X13: mounted from the initial state, the status line reads Ready
    exactly when registration returned a non-empty token and shows the
    error message when registration threw one with a non-empty message;
    after an empty token or an error with an empty message it keeps
    reading Initializing. *)
Theorem status_line_after_mount {S : Type} (h : Handler S) (env : Env) (s : S) :
  notificationStatusText (app (run h (mountEffect env) (initialWorld s)).2) =
  match (run h (registerForPushNotificationsAsync env) (initialWorld s)).1 with
  | Returned token =>
      if truthy token then "✅ Ready to receive push notifications"
      else "⏳ Initializing..."
  | Threw e =>
      if truthy (message e) then "❌ " +:+ message e else "⏳ Initializing..."
  end.
Proof.
  unfold mountEffect. rewrite run_try_catch, run_bind.
  pose proof (run_register_app h env (initialWorld s)) as Happ.
  destruct (run h (registerForPushNotificationsAsync env) (initialWorld s))
    as [[token|e] w'].
  all: simpl in *; rewrite Happ; unfold notificationStatusText; simpl.
  - by destruct (truthy token).
  - by destruct (truthy (message e)).
Qed.

(* The calls that only registration makes. *)
Lemma step_registration_calls {S : Type} (h : Handler S) (env : Env) (w : World S)
    (a : Action) :
  a ≠ Mount ∨ isDevice env = false →
  Forall (λ i, is_permission_call i = false ∧ is_token_request i = false ∧
               is_channel_call i = false) (trace w) →
  Forall (λ i, is_permission_call i = false ∧ is_token_request i = false ∧
               is_channel_call i = false) (trace (step h env w a)).
Proof.
  intros Hcase Htrace. unfold step. destruct a; simpl callback.
  - destruct Hcase as [|Hdev]; [done|].
    unfold mountEffect, registerForPushNotificationsAsync. by rewrite Hdev.
  - rewrite run_notificationListener.
    destruct (h _ DateToLocaleString (outside w)). simpl.
    rewrite Forall_app. split; [done|]. by repeat constructor.
  - rewrite run_responseListener, run_notificationListener.
    destruct (h _ DateToLocaleString (outside w)). simpl.
    rewrite Forall_app. split; [done|]. by repeat constructor.
  - rewrite run_clearHistory. simpl.
    rewrite Forall_app. split; [done|]. by repeat constructor.
  - unfold copyTokenToClipboard. crunch h.
    all: rewrite ?Forall_app; repeat split; try done; by repeat constructor.
  - unfold sendTestNotification. crunch h.
    all: rewrite ?Forall_app; repeat split; try done; by repeat constructor.
Qed.

(** X14: on an emulator the app never gets a token: in every reachable
    state expoPushToken is still empty, so the token section and its
    copy button are never rendered, and no call to the permission, token
    or channel functions has been made. *)
Theorem emulator_never_shows_token {S : Type} (h : Handler S) (env : Env) (s : S)
    (acts : list Action) :
  isDevice env = false →
  let w := session h env acts (initialWorld s) in
  expoPushToken (app w) = "" ∧
  tokenSectionShown (app w) = false ∧
  Forall (λ i, is_permission_call i = false ∧ is_token_request i = false ∧
               is_channel_call i = false) (trace w).
Proof.
  intros Hdev w. subst w.
  assert (Hinv : expoPushToken (app (session h env acts (initialWorld s))) = "" ∧
                 Forall (λ i, is_permission_call i = false ∧ is_token_request i = false ∧
                              is_channel_call i = false)
                   (trace (session h env acts (initialWorld s)))).
  { induction acts as [|a acts [IHtoken IHtrace]] using rev_ind; [by split; constructor|].
    rewrite session_snoc. split; [|apply step_registration_calls; auto].
    assert (Hcase : a = Mount ∨ a ≠ Mount) by (destruct a; by auto).
    destruct Hcase as [->|Hne].
    - unfold step. simpl callback.
      unfold mountEffect, registerForPushNotificationsAsync. by rewrite Hdev.
    - by destruct (step_registration_frame h env
                     (session h env acts (initialWorld s)) a Hne) as [-> _]. }
  destruct Hinv as [Htoken Htrace]. unfold tokenSectionShown. by rewrite Htoken.
Qed.

Lemma emulator_never_shows_token_witness :
  isDevice emulator = false ∧
  expoPushToken
    (app (session scripted emulator
            [Mount; NotificationReceived (sampleNotification "A"); PressCopyToken; Mount]
            (initialWorld (sampleScript GRANTED GRANTED "ExponentPushToken[x]")))) = "".
Proof.
  split; [reflexivity|].
  apply (emulator_never_shows_token scripted emulator
           (sampleScript GRANTED GRANTED "ExponentPushToken[x]")
           [Mount; NotificationReceived (sampleNotification "A"); PressCopyToken; Mount]
           eq_refl).
Defined.

(** X15: the listeners and the three buttons never talk to the
    registration side of expo-notifications: in a session without a
    mount no permission query, permission request, token request or
    channel configuration is made. *)
Theorem only_mount_registers {S : Type} (h : Handler S) (env : Env) (s : S)
    (acts : list Action) :
  Forall (λ a, a ≠ Mount) acts →
  Forall (λ i, is_permission_call i = false ∧ is_token_request i = false ∧
               is_channel_call i = false)
    (trace (session h env acts (initialWorld s))).
Proof.
  induction acts as [|a acts IH] using rev_ind; [by constructor|].
  rewrite Forall_app, Forall_singleton. intros [Hacts Ha].
  rewrite session_snoc. apply step_registration_calls; auto.
Qed.

Lemma only_mount_registers_witness :
  Forall (λ i, is_permission_call i = false ∧ is_token_request i = false ∧
               is_channel_call i = false)
    (trace (session scripted physicalDevice
              [NotificationReceived (sampleNotification "A"); PressSendTest; PressCopyToken]
              (initialWorld (sampleScript GRANTED GRANTED "ExponentPushToken[x]")))).
Proof.
  apply (only_mount_registers scripted physicalDevice
           (sampleScript GRANTED GRANTED "ExponentPushToken[x]")
           [NotificationReceived (sampleNotification "A"); PressSendTest; PressCopyToken]).
  repeat constructor; discriminate.
Defined.
